(** Verification of the component-name resolution of the REANA developer
    helper script (reana/cli.py): [shorten_component_name],
    [find_standard_component_name] and [select_components]. *)

From Stdlib Require Import String Ascii List Bool Lia.
Import ListNotations.
Open Scope string_scope.

(** * Python exceptions and a small error monad *)

Inductive exn : Type :=
| IndexError                     (* raised by [s[0]] on an empty string *)
| Exception (msg : string).      (* raise Exception(msg) *)

Inductive res (A : Type) : Type :=
| Ok (a : A)
| Err (e : exn).
Arguments Ok {A} a.
Arguments Err {A} e.

Definition bind {A B : Type} (m : res A) (f : A -> res B) : res B :=
  match m with
  | Ok a => f a
  | Err e => Err e
  end.

Notation "x <- m ;; k" := (bind m (fun x => k))
  (at level 61, m at next level, right associativity).

Definition exn_eq_dec (e1 e2 : exn) : {e1 = e2} + {e1 <> e2}.
Proof. decide equality; apply string_dec. Defined.

Definition res_string_eq_dec (r1 r2 : res string) : {r1 = r2} + {r1 <> r2}.
Proof. decide equality; [apply string_dec | apply exn_eq_dec]. Defined.

(** [mapM f l]: a Python list comprehension [[f(x) for x in l]] whose body
    may raise. *)
Fixpoint mapM {A B : Type} (f : A -> res B) (l : list A) : res (list B) :=
  match l with
  | [] => Ok []
  | x :: xs => y <- f x ;; ys <- mapM f xs ;; Ok (y :: ys)
  end.

(** * Python string and list primitives *)

(** [s.split(sep)] with a one-character separator: always at least one
    part; [''.split('-') == ['']]. *)
Fixpoint split (sep : ascii) (s : string) : list string :=
  match s with
  | EmptyString => [EmptyString]
  | String c s' =>
      let rest := split sep s' in
      if Ascii.eqb c sep then EmptyString :: rest
      else match rest with
           | p :: ps => String c p :: ps
           | [] => [String c EmptyString]
           end
  end.

(** [part[0]] on a string: raises IndexError on the empty string. *)
Definition str_index0 (part : string) : res string :=
  match part with
  | EmptyString => Err IndexError
  | String c _ => Ok (String c EmptyString)
  end.

(** [x in l] for a list of strings. *)
Definition str_in (x : string) (l : list string) : bool :=
  existsb (String.eqb x) l.

(** * Registry *)

Definition REPO_LIST_ALL : list string := [
  "reana";
  "reana-client";
  "reana-cluster";
  "reana-commons";
  "reana-demo-alice-lego-train-test-run";
  "reana-demo-atlas-recast";
  "reana-demo-bsm-search";
  "reana-demo-cms-h4l";
  "reana-demo-helloworld";
  "reana-demo-lhcb-d2pimumu";
  "reana-demo-root6-roofit";
  "reana-demo-worldpopulation";
  "reana-env-aliphysics";
  "reana-env-jupyter";
  "reana-env-root6";
  "reana-job-controller";
  "reana-message-broker";
  "reana-server";
  "reana-ui";
  "reana-workflow-commons";
  "reana-workflow-controller";
  "reana-workflow-engine-cwl";
  "reana-workflow-engine-serial";
  "reana-workflow-engine-yadage";
  "reana-workflow-monitor";
  "reana.io"].

Definition REPO_LIST_CLUSTER : list string := [
  "reana-commons";
  "reana-job-controller";
  "reana-message-broker";
  "reana-server";
  "reana-workflow-commons";
  "reana-workflow-controller";
  "reana-workflow-engine-cwl";
  "reana-workflow-engine-serial";
  "reana-workflow-engine-yadage";
  "reana-workflow-monitor"].

(** * shorten_component_name *)

(** The loop [for part in parts[:-1]: short_name += part[0] + '-']. *)
Fixpoint shorten_loop (short_name : string) (parts : list string) : res string :=
  match parts with
  | [] => Ok short_name
  | part :: rest =>
      c <- str_index0 part ;;
      shorten_loop (short_name ++ c ++ "-") rest
  end.

Definition shorten_component_name (component : string) : res string :=
  let parts := split "-"%char component in
  short_name <- shorten_loop "" (removelast parts) ;;
  Ok (short_name ++ last parts "").

(** * find_standard_component_name *)

Definition find_error_msg : string :=
  "Component name short_component_name cannot be uniquely mapped.".

(** The loop over [REPO_LIST_ALL] appending every component whose short
    name equals the input to [output]. *)
Fixpoint find_loop (short_component_name : string) (repos : list string)
    (output : list string) : res (list string) :=
  match repos with
  | [] => Ok output
  | component :: rest =>
      component_short_name <- shorten_component_name component ;;
      if String.eqb component_short_name short_component_name
      then find_loop short_component_name rest (output ++ [component])
      else find_loop short_component_name rest output
  end.

Definition find_standard_component_name (short_component_name : string)
    : res string :=
  output <- find_loop short_component_name REPO_LIST_ALL [] ;;
  match output with
  | [n] => Ok n
  | _ => Err (Exception
             ("Component name " ++ "short_component_name"
              ++ " cannot be uniquely mapped."))
  end.

(** * select_components *)

(** [display_message(msg)] with the default [component=''] prints
    ['[{0}] {1}'.format('', msg)]; the printed lines are kept in a log. *)
Definition display_message (msg : string) : string := "[] " ++ msg.

Definition unknown_warning (component : string) : string :=
  display_message ("Ignoring unknown component " ++ component ++ ".").

(** A Python set of strings, kept as a duplicate-free list. *)
Definition set_add (x : string) (s : list string) : list string :=
  if str_in x s then s else s ++ [x].

Definition set_add_all (xs : list string) (s : list string) : list string :=
  fold_left (fun acc x => set_add x acc) xs s.

Record sel_state : Type := mk_sel_state {
  output : list string;      (* the set [output] *)
  log : list string          (* messages printed by display_message *)
}.

Section Select.

(** [os.path.basename(os.getcwd())]. *)
Variable cwd_basename : string.

Definition select_step (short_component_names : list string)
    (component : string) (st : sel_state) : res sel_state :=
  if String.eqb component "ALL" then
    Ok (mk_sel_state (set_add_all REPO_LIST_ALL (output st)) (log st))
  else if String.eqb component "CLUSTER" then
    Ok (mk_sel_state (set_add_all REPO_LIST_CLUSTER (output st)) (log st))
  else if String.eqb component "." then
    Ok (mk_sel_state (set_add cwd_basename (output st)) (log st))
  else if str_in component REPO_LIST_ALL then
    Ok (mk_sel_state (set_add component (output st)) (log st))
  else if str_in component short_component_names then
    component_standard_name <- find_standard_component_name component ;;
    Ok (mk_sel_state (set_add component_standard_name (output st)) (log st))
  else
    Ok (mk_sel_state (output st) (log st ++ [unknown_warning component])).

Fixpoint select_loop (short_component_names : list string)
    (components : list string) (st : sel_state) : res sel_state :=
  match components with
  | [] => Ok st
  | component :: rest =>
      st' <- select_step short_component_names component st ;;
      select_loop short_component_names rest st'
  end.

(** Returns [list(output)] together with the messages printed. *)
Definition select_components (components : list string)
    : res (list string * list string) :=
  short_component_names <- mapM shorten_component_name REPO_LIST_ALL ;;
  st <- select_loop short_component_names components (mk_sel_state [] []) ;;
  Ok (output st, log st).

End Select.

(** * The abbreviation rule as the specification words it *)

(** "For every part except the last, takes its first character and a
    trailing hyphen": undefined ([None]) for a part without a first
    character. *)
Definition initial_with_dash (part : string) : option string :=
  match part with
  | EmptyString => None
  | String c _ => Some (String c "-")
  end.

Fixpoint all_some (l : list (option string)) : option (list string) :=
  match l with
  | [] => Some []
  | None :: _ => None
  | Some x :: xs =>
      match all_some xs with
      | Some ys => Some (x :: ys)
      | None => None
      end
  end.

(** "Splits on '-'. For every part except the last, takes its first
    character and a trailing hyphen; appends the unmodified last part." *)
Definition abbreviate_spec (name : string) : option string :=
  let parts := split "-"%char name in
  match all_some (map initial_with_dash (removelast parts)) with
  | Some initials => Some (String.concat "" initials ++ last parts "")
  | None => None
  end.

(** What a token [c] contributes to the result of [select_components]
    for a name [x]: the registry for 'ALL', the cluster list for
    'CLUSTER', the current directory for '.', and a registry name given in
    full or by its short name. *)
Definition contributes (cwd_basename c x : string) : Prop :=
  (c = "ALL" /\ In x REPO_LIST_ALL) \/
  (c = "CLUSTER" /\ In x REPO_LIST_CLUSTER) \/
  (c = "." /\ x = cwd_basename) \/
  (In x REPO_LIST_ALL /\ (x = c \/ shorten_component_name x = Ok c)).

(** * The command layer: process state and effects *)

(** Argument of [sys.exit]: [sys.exit(1)] or [sys.exit(err.cmd)]. *)
Inductive exit_code : Type :=
| ExitInt (n : nat)
| ExitCmd (cmd : string).

Inductive outcome (A : Type) : Type :=
| Done (a : A)
| Raised (e : exn)            (* a Python exception from the name layer *)
| OSError (path : string)     (* os.chdir on a missing directory *)
| SysExit (code : exit_code).
Arguments Done {A} a.
Arguments Raised {A} e.
Arguments OSError {A} path.
Arguments SysExit {A} code.

(** The part of the process state the commands touch: the working
    directory, the lines printed on the terminal, and the shell commands
    spawned, each with the directory it ran in. *)
Record world : Type := mk_world {
  cwd : string;
  printed : list string;
  spawned : list (string * string)
}.

Definition M (A : Type) : Type := world -> outcome A * world.

Definition retM {A : Type} (a : A) : M A := fun w => (Done a, w).

Definition bindM {A B : Type} (m : M A) (f : A -> M B) : M B :=
  fun w =>
    match m w with
    | (Done a, w') => f a w'
    | (Raised e, w') => (Raised e, w')
    | (OSError p, w') => (OSError p, w')
    | (SysExit c, w') => (SysExit c, w')
    end.

Notation "'mlet' x ':=' m 'in' k" := (bindM m (fun x => k))
  (at level 200, x name, m at level 100, k at level 200).

Definition raiseM {A : Type} (e : exn) : M A := fun w => (Raised e, w).

Definition sys_exit {A : Type} (code : exit_code) : M A := fun w => (SysExit code, w).

(** [click.echo] / [click.secho]: one printed line (styling ignored). *)
Definition echo (line : string) : M unit :=
  fun w => (Done tt, mk_world (cwd w) (printed w ++ [line]) (spawned w)).

Fixpoint forM_ {A : Type} (f : A -> M unit) (l : list A) : M unit :=
  match l with
  | [] => retM tt
  | x :: xs => mlet _ := f x in forM_ f xs
  end.

(** [os.path.basename] on a POSIX path. *)
Definition basename (path : string) : string := last (split "/"%char path) "".

(** The double-quote character. *)
Definition dq : string := String (ascii_of_nat 34) EmptyString.

Definition srcdir_help_1 : string :=
  "Please set environment variable REANA_SRCDIR to the directory that will contain REANA source code repositories.".
Definition srcdir_help_2 : string :=
  "Example: $ export REANA_SRCDIR=~/private/project/reana/src".
Definition github_user_help_1 : string :=
  "Please set environment variable REANA_GITHUB_USER to your GitHub user name.".
Definition github_user_help_2 : string :=
  "Example: $ export REANA_GITHUB_USER=tiborsimko".

(** ['[{0}] {1}'.format(component, text)], the line printed by
    [run_command] and [display_message]. *)
Definition bracket_line (component text : string) : string :=
  "[" ++ component ++ "] " ++ text.

(** [select_components] run in the process: the basename of the working
    directory is read, and the warnings are printed. *)
Definition select_components_m (components : list string) : M (list string) :=
  fun w =>
    match select_components (basename (cwd w)) components with
    | Ok (out, lg) => (Done out, mk_world (cwd w) (printed w ++ lg) (spawned w))
    | Err e => (Raised e, w)
    end.

Section Commands.

(** [os.environ.get('REANA_SRCDIR')] and [os.environ.get('REANA_GITHUB_USER')]. *)
Variable SRCDIR : option string.
Variable GITHUB_USER : option string.
(** The file system and the shell: whether a directory exists, whether a
    path exists, and whether a shell command exits with status 0 when run
    in a given directory. *)
Variable is_dir : string -> bool.
Variable path_exists : string -> bool.
Variable cmd_ok : string -> string -> bool.

(** Python truthiness of an optional string. *)
Definition truthy (v : option string) : bool :=
  match v with
  | Some s => negb (String.eqb s "")
  | None => false
  end.

Definition os_chdir (path : string) : M unit :=
  fun w => if is_dir path then (Done tt, mk_world path (printed w) (spawned w))
           else (OSError path, w).

(** [subprocess.run(cmd, shell=True, check=True)]: [false] when the command
    fails. *)
Definition subprocess_run (cmd : string) : M bool :=
  fun w => (Done (cmd_ok (cwd w) cmd),
            mk_world (cwd w) (printed w) (spawned w ++ [(cwd w, cmd)])).

Definition get_srcdir (component : string) : M string :=
  if negb (truthy SRCDIR) then
    mlet _ := echo srcdir_help_1 in
    mlet _ := echo srcdir_help_2 in
    sys_exit (ExitInt 1)
  else
    let srcdir := match SRCDIR with Some d => d | None => "" end in
    if negb (String.eqb component "") then retM (srcdir ++ "/" ++ component)
    else retM srcdir.

Definition run_command (cmd component : string) : M unit :=
  mlet _ := echo (bracket_line component cmd) in
  mlet _ := (if negb (String.eqb component "")
             then mlet d := get_srcdir component in os_chdir d
             else retM tt) in
  mlet ok := subprocess_run cmd in
  if ok then retM tt else sys_exit (ExitCmd cmd).

Definition display_message_m (msg component : string) : M unit :=
  echo (bracket_line component msg).

Definition is_component_dockerised (component : string) : M bool :=
  mlet d := get_srcdir component in
  retM (path_exists (d ++ "/" ++ "Dockerfile")).

Definition checkout_cmd (pull_request : string) : string :=
  "git checkout -b pr-" ++ pull_request ++ " upstream/pr/" ++ pull_request.

(** [git_checkout]: [component = select_components([component, ])[0]]
    takes the first element of the selection; for a single token other
    than 'ALL' and 'CLUSTER' the selection has at most one element. *)
Fixpoint git_checkout (branch : list (string * string)) (fetch : bool) : M unit :=
  match branch with
  | [] => retM tt
  | (component, pull_request) :: rest =>
      mlet comps := select_components_m [component] in
      mlet _ := match comps with
                | [] => raiseM IndexError
                | component :: _ =>
                    if str_in component REPO_LIST_ALL then
                      mlet _ := (if fetch
                                 then run_command "git fetch upstream" component
                                 else retM tt) in
                      run_command (checkout_cmd pull_request) component
                    else display_message_m "Ignoring unknown component." component
                end in
      git_checkout rest fetch
  end.

Definition clone_cmd (user component : string) : string :=
  "git clone git@github.com:" ++ user ++ "/" ++ component.
Definition remote_cmd (component : string) : string :=
  "git remote add upstream " ++ dq ++ "git@github.com:reanahub/" ++ component ++ dq.
Definition fetch_config_cmd : string :=
  "git config --add remote.upstream.fetch " ++ dq
  ++ "+refs/pull/*/head:refs/remotes/upstream/pr/*" ++ dq.

Definition git_clone (user : string) (component : list string) : M unit :=
  if negb (truthy GITHUB_USER) then
    mlet _ := echo github_user_help_1 in
    mlet _ := echo github_user_help_2 in
    sys_exit (ExitInt 1)
  else
    mlet components := select_components_m component in
    forM_ (fun component =>
             mlet d := get_srcdir "" in
             mlet _ := os_chdir d in
             mlet _ := run_command (clone_cmd user component) "" in
             forM_ (fun cmd => run_command cmd component)
                   [remote_cmd component; fetch_config_cmd])
          components.

Definition build_cmd (user tag : string) (no_cache : bool) (component : string) : string :=
  if no_cache then
    "docker build --no-cache -t " ++ user ++ "/" ++ component ++ ":" ++ tag ++ " ."
  else "docker build -t " ++ user ++ "/" ++ component ++ ":" ++ tag ++ " .".

Definition no_dockerfile_msg : string :=
  "Ignoring this component that does not contain a Dockerfile.".

Definition docker_build (user tag : string) (component : list string)
    (no_cache : bool) : M unit :=
  mlet components := select_components_m component in
  forM_ (fun component =>
           mlet b := is_component_dockerised component in
           if b then run_command (build_cmd user tag no_cache component) component
           else display_message_m no_dockerfile_msg component)
        components.



End Commands.

(** [git_fork] only prints: the fork commands are meant to be [eval]ed by
    the user. *)
Definition fork_header_1 : string :=
  "# Fork REANA repositories on GitHub using your browser.".

Definition fork_header_2 : string :=
  "# Run the following eval and then complete the fork process in your browser.".

Definition fork_eval_line (browser : string) (component : list string) : string :=
  "# eval " ++ dq ++ "$(reana git-fork -b " ++ browser ++ " " ++
  String.concat "" (map (fun c => " -c " ++ c) component) ++ ")" ++ dq.

Definition fork_cmd (browser component : string) : string :=
  browser ++ " https://github.com/reanahub/" ++ component ++ "/fork;".

Definition fork_final : string :=
  "echo " ++ dq ++ "Please continue the fork process in the opened browser windows." ++ dq.

Definition git_fork (component : list string) (browser : string) : M unit :=
  mlet components := select_components_m component in
  mlet _ := match components with
            | [] => retM tt
            | _ :: _ =>
                mlet _ := echo fork_header_1 in
                mlet _ := echo fork_header_2 in
                mlet _ := echo "#" in
                echo (fork_eval_line browser component)
            end in
  mlet _ := forM_ (fun c => echo (fork_cmd browser c)) components in
  echo fork_final.

(** * Executable checks over the registry *)

Definition res_eqb (r1 r2 : res string) : bool :=
  if res_string_eq_dec r1 r2 then true else false.

(** The short names of the registry entries ([short_component_names] in
    [select_components]). *)
Definition registry_short_names : list string :=
  map (fun c => match shorten_component_name c with Ok a => a | Err _ => "" end)
      REPO_LIST_ALL.

(** Tokens that [select_components] handles in one of its first five
    branches; every other token reaches the warning branch. *)
Definition recognizedb (component : string) : bool :=
  String.eqb component "ALL" || String.eqb component "CLUSTER" ||
  String.eqb component "." || str_in component REPO_LIST_ALL ||
  str_in component registry_short_names.

(** "collecting every entry whose abbreviation equals the input", in
    registry order. *)
Definition matches (short : string) : list string :=
  filter (fun c => res_eqb (shorten_component_name c) (Ok short)) REPO_LIST_ALL.

Definition roundtripb (n : string) : bool :=
  match shorten_component_name n with
  | Ok a => res_eqb (find_standard_component_name a) (Ok n)
  | Err _ => false
  end.

Fixpoint nodupb (l : list (res string)) : bool :=
  match l with
  | [] => true
  | x :: xs => negb (existsb (res_eqb x) xs) && nodupb xs
  end.

(** * Generic lemmas *)

Lemma dec_true {P : Prop} (d : {P} + {~ P}) :
  (if d then true else false) = true -> P.
Proof. destruct d; [auto | discriminate]. Qed.

Lemma res_eqb_true r1 r2 : res_eqb r1 r2 = true -> r1 = r2.
Proof. unfold res_eqb. apply dec_true. Qed.

Lemma nodupb_NoDup l : nodupb l = true -> NoDup l.
Proof.
  induction l as [|x xs IH]; simpl; intros H; [constructor|].
  apply andb_prop in H as [Hn Hxs]. constructor; [|auto].
  intros Hin. apply negb_true_iff in Hn.
  assert (existsb (res_eqb x) xs = true) as Hc.
  { apply existsb_exists. exists x. split; [exact Hin|].
    unfold res_eqb. destruct (res_string_eq_dec x x); congruence. }
  congruence.
Qed.

Lemma string_app_assoc (a b c : string) : (a ++ b) ++ c = a ++ (b ++ c).
Proof. induction a as [|x a IH]; simpl; [reflexivity | rewrite IH; reflexivity]. Qed.

Lemma string_app_nil_r (a : string) : a ++ "" = a.
Proof. induction a as [|x a IH]; simpl; [reflexivity | rewrite IH; reflexivity]. Qed.

Lemma concat_empty_cons (x : string) (xs : list string) :
  String.concat "" (x :: xs) = x ++ String.concat "" xs.
Proof. destruct xs; simpl; [rewrite string_app_nil_r|]; reflexivity. Qed.

Lemma NoDup_map_inj {A B : Type} (f : A -> B) (l : list A) (x y : A) :
  NoDup (map f l) -> In x l -> In y l -> f x = f y -> x = y.
Proof.
  induction l as [|a l IH]; simpl; intros Hnd Hx Hy Hf; [contradiction|].
  inversion Hnd as [|b m Hnotin Hnd' Heq]; subst.
  destruct Hx as [<-|Hx], Hy as [<-|Hy]; auto.
  - exfalso. apply Hnotin. rewrite Hf. apply in_map; exact Hy.
  - exfalso. apply Hnotin. rewrite <- Hf. apply in_map; exact Hx.
Qed.

Lemma roundtrip_registry :
  forall n, In n REPO_LIST_ALL -> roundtripb n = true.
Proof.
  apply forallb_forall. vm_compute. reflexivity.
Qed.

Lemma shorts_nodup : NoDup (map shorten_component_name REPO_LIST_ALL).
Proof. apply nodupb_NoDup. vm_compute. reflexivity. Qed.

(** The accumulator loop of [shorten_component_name] appends the
    initials of all parts, or raises IndexError at the first empty one. *)
Lemma shorten_loop_spec (acc : string) (parts : list string) :
  shorten_loop acc parts =
  match all_some (map initial_with_dash parts) with
  | Some initials => Ok (acc ++ String.concat "" initials)
  | None => Err IndexError
  end.
Proof.
  revert acc; induction parts as [|p ps IH]; intros acc; simpl.
  - rewrite string_app_nil_r. reflexivity.
  - destruct p as [|c p]; simpl; [reflexivity|].
    rewrite IH. destruct (all_some (map initial_with_dash ps)); [|reflexivity].
    rewrite concat_empty_cons, string_app_assoc. reflexivity.
Qed.

Lemma all_some_initials_None (parts : list string) :
  all_some (map initial_with_dash parts) = None <-> In "" parts.
Proof.
  induction parts as [|p ps IH]; simpl.
  - split; [discriminate | contradiction].
  - destruct p as [|c p]; simpl.
    + split; [auto | reflexivity].
    + destruct (all_some (map initial_with_dash ps)) eqn:E.
      * split; [discriminate|]. intros [H|H]; [discriminate|].
        apply IH in H. discriminate.
      * split; [intros _; right; apply IH; reflexivity | reflexivity].
Qed.

Lemma res_eqb_Ok (a b : string) : res_eqb (Ok a) (Ok b) = String.eqb a b.
Proof.
  unfold res_eqb. destruct (res_string_eq_dec (Ok a) (Ok b)) as [E|E].
  - inversion E; subst. symmetry. apply String.eqb_refl.
  - symmetry. apply String.eqb_neq. congruence.
Qed.

(** The scan of [find_standard_component_name] raises the first error of
    shortening a registry entry, and otherwise collects the matches. *)
Lemma find_loop_spec (short : string) (repos out : list string) :
  find_loop short repos out =
  bind (mapM shorten_component_name repos)
       (fun _ => Ok (out ++ filter (fun c => res_eqb (shorten_component_name c) (Ok short)) repos)%list).
Proof.
  revert out; induction repos as [|c cs IH]; intros out; simpl.
  - rewrite app_nil_r. reflexivity.
  - destruct (shorten_component_name c) as [a|e]; simpl; [|reflexivity].
    rewrite res_eqb_Ok. destruct (String.eqb a short); rewrite IH;
      destruct (mapM shorten_component_name cs); simpl; try reflexivity.
    rewrite <- app_assoc. reflexivity.
Qed.

Lemma registry_shortens :
  mapM shorten_component_name REPO_LIST_ALL = Ok registry_short_names.
Proof. vm_compute. reflexivity. Qed.

Lemma find_standard_component_name_matches (short : string) :
  find_standard_component_name short =
  match matches short with
  | [n] => Ok n
  | _ => Err (Exception find_error_msg)
  end.
Proof.
  unfold find_standard_component_name. rewrite find_loop_spec, registry_shortens.
  cbn [bind app]. unfold matches. destruct (filter _ _) as [|n [|m l]]; reflexivity.
Qed.

Lemma str_in_iff (x : string) (l : list string) : str_in x l = true <-> In x l.
Proof.
  unfold str_in. rewrite existsb_exists. split.
  - intros [y [Hy E]]. apply String.eqb_eq in E. subst. exact Hy.
  - intros H. exists x. split; [exact H | apply String.eqb_refl].
Qed.

Lemma short_names_resolve :
  forall a, In a registry_short_names ->
  exists n, find_standard_component_name a = Ok n.
Proof.
  intros a Ha.
  assert (Hall : forallb (fun a => match find_standard_component_name a with
                                   | Ok _ => true | Err _ => false end)
                         registry_short_names = true)
    by (vm_compute; reflexivity).
  rewrite forallb_forall in Hall. specialize (Hall a Ha).
  destruct (find_standard_component_name a) as [n|e]; [exists n; reflexivity | discriminate].
Qed.

Lemma find_in_registry (a n : string) :
  find_standard_component_name a = Ok n -> In n REPO_LIST_ALL.
Proof.
  rewrite find_standard_component_name_matches. unfold matches.
  destruct (filter _ _) as [|m [|k l]] eqn:E; try discriminate.
  intros H. inversion H; subst.
  assert (Hm : In n [n]) by (left; reflexivity). rewrite <- E in Hm.
  apply filter_In in Hm. apply Hm.
Qed.

(** A recognized token updates the set and leaves the log unchanged. *)
Lemma select_step_recognized (cwd_basename component : string) (out0 : list string) :
  recognizedb component = true ->
  exists out', forall lg,
    select_step cwd_basename registry_short_names component (mk_sel_state out0 lg)
    = Ok (mk_sel_state out' lg).
Proof.
  unfold recognizedb, select_step. intros Hr.
  destruct (String.eqb component "ALL");
    [eexists; intros lg; cbn [output log]; reflexivity|].
  destruct (String.eqb component "CLUSTER");
    [eexists; intros lg; cbn [output log]; reflexivity|].
  destruct (String.eqb component ".");
    [eexists; intros lg; cbn [output log]; reflexivity|].
  destruct (str_in component REPO_LIST_ALL);
    [eexists; intros lg; cbn [output log]; reflexivity|].
  cbn [orb] in Hr. rewrite Hr.
  apply str_in_iff, short_names_resolve in Hr as [n Hn].
  rewrite Hn. eexists; intros lg; cbn [output log bind]; reflexivity.
Qed.

Lemma select_step_unrecognized (cwd_basename component : string) (st : sel_state) :
  recognizedb component = false ->
  select_step cwd_basename registry_short_names component st
  = Ok (mk_sel_state (output st) (log st ++ [unknown_warning component])).
Proof.
  unfold recognizedb, select_step. intros Hr.
  repeat (apply orb_false_iff in Hr as [Hr ?]).
  repeat match goal with H : _ = false |- _ => rewrite H; clear H end.
  reflexivity.
Qed.

(** Unrecognized tokens only add one warning each; the set is the one
    obtained from the recognized tokens alone. *)
Lemma select_loop_split (cwd_basename : string) (cs : list string) :
  forall out0 log0, exists out,
    (forall lg, select_loop cwd_basename registry_short_names
                  (filter recognizedb cs) (mk_sel_state out0 lg)
                = Ok (mk_sel_state out lg)) /\
    select_loop cwd_basename registry_short_names cs (mk_sel_state out0 log0)
    = Ok (mk_sel_state out
            (log0 ++ map unknown_warning (filter (fun c => negb (recognizedb c)) cs))%list).
Proof.
  induction cs as [|c cs IH]; intros out0 log0; simpl.
  - exists out0. split; [reflexivity | rewrite app_nil_r; reflexivity].
  - destruct (recognizedb c) eqn:Hr; simpl.
    + destruct (select_step_recognized cwd_basename c out0 Hr) as [out' Hstep].
      destruct (IH out' log0) as [out [H1 H2]].
      exists out. split.
      * intros lg. rewrite Hstep. simpl. apply H1.
      * rewrite Hstep. simpl. exact H2.
    + rewrite select_step_unrecognized by exact Hr. simpl.
      destruct (IH out0 (log0 ++ [unknown_warning c])%list) as [out [H1 H2]].
      exists out. split; [exact H1|].
      rewrite H2, <- app_assoc. reflexivity.
Qed.

Lemma Ok_inj {A : Type} (a b : A) : Ok a = Ok b -> a = b.
Proof. intros H. inversion H. reflexivity. Qed.

Lemma set_add_in (x y : string) (s : list string) :
  In y (set_add x s) -> y = x \/ In y s.
Proof.
  unfold set_add. destruct (str_in x s); [auto|].
  intros H. apply in_app_or in H as [H|[H|[]]]; auto.
Qed.

Lemma set_add_all_in (xs s : list string) (y : string) :
  In y (set_add_all xs s) -> In y xs \/ In y s.
Proof.
  unfold set_add_all. revert s; induction xs as [|x xs IH]; simpl; intros s H; [auto|].
  apply IH in H as [H|H]; [auto|].
  apply set_add_in in H as [->|H]; auto.
Qed.

Lemma cluster_in_registry : incl REPO_LIST_CLUSTER REPO_LIST_ALL.
Proof.
  intros x Hx.
  assert (H : forallb (fun c => str_in c REPO_LIST_ALL) REPO_LIST_CLUSTER = true)
    by (vm_compute; reflexivity).
  rewrite forallb_forall in H. apply str_in_iff, H, Hx.
Qed.

(** Without a '.' token, every step keeps the set inside the registry. *)
Lemma select_step_in_registry (cwd_basename : string) (shorts : list string)
    (component : string) (st st' : sel_state) :
  component <> "." ->
  incl (output st) REPO_LIST_ALL ->
  select_step cwd_basename shorts component st = Ok st' ->
  incl (output st') REPO_LIST_ALL.
Proof.
  intros Hdot Hst. unfold select_step.
  destruct (String.eqb component "ALL") eqn:E1.
  { intros H; apply Ok_inj in H; subst st'; cbn [output].
    intros y Hy. apply set_add_all_in in Hy as [Hy|Hy]; [exact Hy | exact (Hst y Hy)]. }
  destruct (String.eqb component "CLUSTER") eqn:E2.
  { intros H; apply Ok_inj in H; subst st'; cbn [output].
    intros y Hy. apply set_add_all_in in Hy as [Hy|Hy];
      [exact (cluster_in_registry y Hy) | exact (Hst y Hy)]. }
  destruct (String.eqb component ".") eqn:E3.
  { apply String.eqb_eq in E3. contradiction. }
  destruct (str_in component REPO_LIST_ALL) eqn:E4.
  { intros H; apply Ok_inj in H; subst st'; cbn [output].
    intros y Hy. apply set_add_in in Hy as [->|Hy];
      [apply str_in_iff; exact E4 | exact (Hst y Hy)]. }
  destruct (str_in component shorts) eqn:E5.
  { destruct (find_standard_component_name component) as [n|e] eqn:Hf;
      cbn [bind]; intros H; [injection H as <-; cbn [output] | discriminate H].
    intros y Hy. apply set_add_in in Hy as [->|Hy];
      [exact (find_in_registry _ _ Hf) | exact (Hst y Hy)]. }
  intros H; apply Ok_inj in H; subst st'; cbn [output]. exact Hst.
Qed.

Lemma select_loop_in_registry (cwd_basename : string) (shorts cs : list string) :
  forall st st', ~ In "." cs ->
  incl (output st) REPO_LIST_ALL ->
  select_loop cwd_basename shorts cs st = Ok st' ->
  incl (output st') REPO_LIST_ALL.
Proof.
  induction cs as [|c cs IH]; simpl; intros st st' Hdot Hst H.
  - inversion H; subst; exact Hst.
  - destruct (select_step cwd_basename shorts c st) as [st1|e] eqn:Hs;
      cbn [bind] in H; [|discriminate].
    apply (IH st1 st'); auto.
    apply (select_step_in_registry cwd_basename shorts c st st1); auto.
Qed.

Lemma set_add_iff (x y : string) (s : list string) :
  In y (set_add x s) <-> y = x \/ In y s.
Proof.
  split; [apply set_add_in|]. unfold set_add.
  destruct (str_in x s) eqn:E; intros [->|H].
  - apply str_in_iff, E.
  - exact H.
  - apply in_or_app; right; left; reflexivity.
  - apply in_or_app; left; exact H.
Qed.

Lemma set_add_all_iff (xs s : list string) (y : string) :
  In y (set_add_all xs s) <-> In y xs \/ In y s.
Proof.
  unfold set_add_all. revert s; induction xs as [|x xs IH]; intros s; simpl.
  - tauto.
  - rewrite IH, set_add_iff.
    split; intros H; repeat destruct H as [H|H]; subst; auto.
Qed.

Lemma set_add_NoDup (x : string) (s : list string) :
  NoDup s -> NoDup (set_add x s).
Proof.
  unfold set_add. destruct (str_in x s) eqn:E; intros H; [exact H|].
  apply NoDup_app; [exact H | constructor; [intros []| constructor] |].
  intros y Hy [->|[]]. apply (proj2 (str_in_iff y s)) in Hy. congruence.
Qed.

Lemma set_add_all_NoDup (xs s : list string) :
  NoDup s -> NoDup (set_add_all xs s).
Proof.
  unfold set_add_all. revert s; induction xs as [|x xs IH]; intros s H; simpl;
    [exact H | apply IH, set_add_NoDup, H].
Qed.

Lemma select_loop_NoDup (cwd_basename : string) (shorts cs : list string) :
  forall st st', NoDup (output st) ->
  select_loop cwd_basename shorts cs st = Ok st' -> NoDup (output st').
Proof.
  induction cs as [|c cs IH]; simpl; intros st st' Hnd H.
  - apply Ok_inj in H; subst st'; exact Hnd.
  - destruct (select_step cwd_basename shorts c st) as [st1|e] eqn:Hs;
      cbn [bind] in H; [|discriminate H].
    apply (IH st1 st'); [|exact H].
    unfold select_step in Hs.
    destruct (String.eqb c "ALL");
      [apply Ok_inj in Hs; subst st1; apply set_add_all_NoDup, Hnd|].
    destruct (String.eqb c "CLUSTER");
      [apply Ok_inj in Hs; subst st1; apply set_add_all_NoDup, Hnd|].
    destruct (String.eqb c ".");
      [apply Ok_inj in Hs; subst st1; apply set_add_NoDup, Hnd|].
    destruct (str_in c REPO_LIST_ALL);
      [apply Ok_inj in Hs; subst st1; apply set_add_NoDup, Hnd|].
    destruct (str_in c shorts).
    + destruct (find_standard_component_name c); cbn [bind] in Hs; [|discriminate Hs].
      apply Ok_inj in Hs; subst st1; apply set_add_NoDup, Hnd.
    + apply Ok_inj in Hs; subst st1; exact Hnd.
Qed.

Lemma shorten_registry_short (x a : string) :
  In x REPO_LIST_ALL -> shorten_component_name x = Ok a ->
  In a registry_short_names.
Proof.
  intros Hx Ha. unfold registry_short_names.
  apply in_map_iff. exists x. rewrite Ha. split; [reflexivity | exact Hx].
Qed.

(** A registry name is the short name of no other registry entry. *)
Lemma registry_name_short_self (x c : string) :
  In x REPO_LIST_ALL -> In c REPO_LIST_ALL ->
  shorten_component_name x = Ok c -> x = c.
Proof.
  intros Hx Hc Hs.
  assert (H : forallb (fun x => forallb (fun c =>
             negb (res_eqb (shorten_component_name x) (Ok c)) || String.eqb x c)
             REPO_LIST_ALL) REPO_LIST_ALL = true) by (vm_compute; reflexivity).
  rewrite forallb_forall in H. specialize (H x Hx).
  rewrite forallb_forall in H. specialize (H c Hc).
  rewrite Hs, res_eqb_Ok, String.eqb_refl in H. simpl in H.
  apply String.eqb_eq, H.
Qed.

(** A token outside the registry and its short names contributes only
    through the keyword branches. *)
Lemma contributes_unknown (c x : string) :
  str_in c REPO_LIST_ALL = false -> str_in c registry_short_names = false ->
  In x REPO_LIST_ALL /\ (x = c \/ shorten_component_name x = Ok c) -> False.
Proof.
  intros H1 H2 [Hx [->|Hs]].
  - apply (proj2 (str_in_iff c REPO_LIST_ALL)) in Hx. congruence.
  - apply shorten_registry_short in Hs; [|exact Hx].
    apply (proj2 (str_in_iff c registry_short_names)) in Hs. congruence.
Qed.

Lemma select_step_members (cwd_basename c : string) (st st' : sel_state) :
  select_step cwd_basename registry_short_names c st = Ok st' ->
  forall x, In x (output st') <-> In x (output st) \/ contributes cwd_basename c x.
Proof.
  intros Hs x. unfold contributes. unfold select_step in Hs.
  destruct (String.eqb c "ALL") eqn:E1.
  { apply String.eqb_eq in E1; subst c. apply Ok_inj in Hs; subst st'.
    cbn [output]. rewrite set_add_all_iff.
    split; [intros [H|H]; [right; left; auto | left; exact H]|].
    intros [H|[[_ H]|[[E _]|[[E _]|[H _]]]]]; try discriminate E; auto. }
  assert (N1 : c <> "ALL") by (apply String.eqb_neq, E1).
  destruct (String.eqb c "CLUSTER") eqn:E2.
  { apply String.eqb_eq in E2; subst c. apply Ok_inj in Hs; subst st'.
    cbn [output]. rewrite set_add_all_iff.
    assert (K : In x REPO_LIST_ALL /\ (x = "CLUSTER" \/ shorten_component_name x = Ok "CLUSTER") -> False)
      by (apply contributes_unknown; vm_compute; reflexivity).
    split; [intros [H|H]; [right; right; left; auto | left; exact H]|].
    intros [H|[[E _]|[[_ H]|[[E _]|H]]]]; try discriminate E; auto.
    exfalso; exact (K H). }
  assert (N2 : c <> "CLUSTER") by (apply String.eqb_neq, E2).
  destruct (String.eqb c ".") eqn:E3.
  { apply String.eqb_eq in E3; subst c. apply Ok_inj in Hs; subst st'.
    cbn [output]. rewrite set_add_iff.
    assert (K : In x REPO_LIST_ALL /\ (x = "." \/ shorten_component_name x = Ok ".") -> False)
      by (apply contributes_unknown; vm_compute; reflexivity).
    split; [intros [H|H]; [right; right; right; left; auto | left; exact H]|].
    intros [H|[[E _]|[[E _]|[[_ H]|H]]]]; try discriminate E; auto.
    exfalso; exact (K H). }
  assert (N3 : c <> ".") by (apply String.eqb_neq, E3).
  destruct (str_in c REPO_LIST_ALL) eqn:E4.
  { apply Ok_inj in Hs; subst st'. cbn [output]. rewrite set_add_iff.
    apply str_in_iff in E4.
    split.
    - intros [->|H]; [right; right; right; right; split; auto | left; exact H].
    - intros [H|[[E _]|[[E _]|[[E _]|[Hx [->|Hsh]]]]]]; try congruence; auto.
      left. apply (registry_name_short_self x c Hx E4 Hsh). }
  destruct (str_in c registry_short_names) eqn:E5.
  { destruct (find_standard_component_name c) as [n|e] eqn:Hf;
      cbn [bind] in Hs; [|discriminate Hs].
    apply Ok_inj in Hs; subst st'. cbn [output]. rewrite set_add_iff.
    rewrite find_standard_component_name_matches in Hf.
    destruct (matches c) as [|m [|k l]] eqn:Em; try discriminate Hf.
    apply Ok_inj in Hf; subst m.
    assert (Hm : forall y, In y (matches c) <->
                 In y REPO_LIST_ALL /\ shorten_component_name y = Ok c).
    { intros y. unfold matches. rewrite filter_In.
      destruct (shorten_component_name y) as [a|e] eqn:Ey.
      - rewrite res_eqb_Ok. split; intros [H1 H2]; split; auto.
        + apply String.eqb_eq in H2; subst; reflexivity.
        + apply String.eqb_eq. congruence.
      - split; intros [_ H2]; discriminate H2. }
    rewrite Em in Hm.
    split.
    - intros [->|H]; [|left; exact H].
      right; right; right; right. destruct (proj1 (Hm n) (or_introl eq_refl)) as [Hx Hsh].
      split; [exact Hx | right; exact Hsh].
    - intros [H|[[E _]|[[E _]|[[E _]|[Hx [->|Hsh]]]]]]; try congruence; auto.
      + apply (proj2 (str_in_iff c REPO_LIST_ALL)) in Hx. congruence.
      + left. destruct (proj2 (Hm x) (conj Hx Hsh)) as [H|[]]. symmetry; exact H. }
  apply Ok_inj in Hs; subst st'. cbn [output].
  split; [intros H; left; exact H|].
  intros [H|[[E _]|[[E _]|[[E _]|H]]]]; try congruence; auto.
  exfalso. exact (contributes_unknown c x E4 E5 H).
Qed.

Lemma select_loop_members (cwd_basename : string) (cs : list string) :
  forall st st',
  select_loop cwd_basename registry_short_names cs st = Ok st' ->
  forall x, In x (output st') <->
            In x (output st) \/ exists c, In c cs /\ contributes cwd_basename c x.
Proof.
  induction cs as [|c cs IH]; simpl; intros st st' H x.
  - apply Ok_inj in H; subst st'. split; [auto|].
    intros [H|[c [[] _]]]; exact H.
  - destruct (select_step cwd_basename registry_short_names c st) as [st1|e] eqn:Hs;
      cbn [bind] in H; [|discriminate H].
    rewrite (IH st1 st' H x), (select_step_members cwd_basename c st st1 Hs x).
    split.
    + intros [[H1|H1]|[d [Hd H2]]]; [left; exact H1 | right; exists c; auto |
                                    right; exists d; auto].
    + intros [H1|[d [[<-|Hd] H2]]]; [left; left; exact H1 | left; right; exact H2 |
                                    right; exists d; auto].
Qed.

Lemma select_components_Ok (cwd_basename : string) (cs : list string) :
  exists out,
    select_components cwd_basename cs =
      Ok (out, map unknown_warning (filter (fun c => negb (recognizedb c)) cs)) /\
    select_loop cwd_basename registry_short_names cs (mk_sel_state [] [])
      = Ok (mk_sel_state out
             (map unknown_warning (filter (fun c => negb (recognizedb c)) cs))).
Proof.
  destruct (select_loop_split cwd_basename cs [] []) as [out [_ H2]].
  exists out. unfold select_components. rewrite registry_shortens. cbn [bind].
  rewrite H2. split; reflexivity.
Qed.

Lemma truthy_Some (d : string) : d <> "" -> truthy (Some d) = true.
Proof. intros H. unfold truthy. apply String.eqb_neq in H. rewrite H. reflexivity. Qed.

Lemma run_command_component (SRCDIR : option string) (d : string)
    (is_dir : string -> bool) (cmd_ok : string -> string -> bool)
    (cmd component : string) (w : world) :
  SRCDIR = Some d -> d <> "" -> component <> "" ->
  is_dir (d ++ "/" ++ component) = true ->
  run_command SRCDIR is_dir cmd_ok cmd component w =
  (if cmd_ok (d ++ "/" ++ component) cmd then Done tt else SysExit (ExitCmd cmd),
   mk_world (d ++ "/" ++ component)
            (printed w ++ [bracket_line component cmd])
            (spawned w ++ [(d ++ "/" ++ component, cmd)])).
Proof.
  intros -> Hd Hc Hdir.
  unfold run_command, bindM, echo, get_srcdir, os_chdir, subprocess_run, retM, sys_exit.
  rewrite (truthy_Some d Hd). apply String.eqb_neq in Hc. rewrite Hc.
  cbn in Hdir |- *. rewrite Hdir. cbn. destruct (cmd_ok _ _); reflexivity.
Qed.


Lemma select_single_unknown (b c : string) :
  recognizedb c = false -> select_components b [c] = Ok ([], [unknown_warning c]).
Proof.
  intros Hr. unfold select_components. rewrite registry_shortens. cbn [bind select_loop].
  rewrite select_step_unrecognized by exact Hr. reflexivity.
Qed.

Lemma NoDup_singleton_members (l : list string) (n : string) :
  NoDup l -> (forall x, In x l <-> x = n) -> l = [n].
Proof.
  intros Hnd Hm. destruct l as [|a [|b l]].
  - exfalso. apply (proj2 (Hm n) eq_refl).
  - f_equal. apply Hm. left; reflexivity.
  - exfalso. inversion Hnd as [|a' l' Hna Hnd' E]; subst.
    assert (a = n) by (apply Hm; left; reflexivity).
    assert (b = n) by (apply Hm; right; left; reflexivity).
    subst. apply Hna. left; reflexivity.
Qed.

(** A registry name, given in full or by its short name, selects exactly
    that name. *)
Lemma select_single_known (b c n : string) :
  In n REPO_LIST_ALL -> (c = n \/ shorten_component_name n = Ok c) ->
  select_components b [c] = Ok ([n], []).
Proof.
  intros Hn Hc.
  assert (Hkw : forall k, In k ["ALL"; "CLUSTER"; "."] -> c <> k).
  { intros k Hk ->.
    assert (K1 : forallb (fun k => negb (str_in k REPO_LIST_ALL)
                   && negb (str_in k registry_short_names)) ["ALL"; "CLUSTER"; "."] = true)
      by (vm_compute; reflexivity).
    rewrite forallb_forall in K1. specialize (K1 k Hk).
    apply andb_prop in K1 as [K1 K2]. apply negb_true_iff in K1, K2.
    destruct Hc as [<-|Hs].
    - apply (proj2 (str_in_iff k REPO_LIST_ALL)) in Hn. congruence.
    - apply shorten_registry_short in Hs; [|exact Hn].
      apply (proj2 (str_in_iff k registry_short_names)) in Hs. congruence. }
  assert (Hrec : recognizedb c = true).
  { unfold recognizedb. destruct Hc as [->|Hs].
    - apply str_in_iff in Hn. rewrite Hn. rewrite !orb_true_r. reflexivity.
    - apply shorten_registry_short in Hs; [|exact Hn].
      apply str_in_iff in Hs. rewrite Hs. rewrite !orb_true_r. reflexivity. }
  destruct (select_components_Ok b [c]) as [out [H1 H2]].
  simpl in H1. rewrite Hrec in H1. simpl in H1. rewrite H1.
  f_equal. f_equal.
  apply NoDup_singleton_members.
  - exact (select_loop_NoDup b registry_short_names [c] (mk_sel_state [] []) _ (NoDup_nil _) H2).
  - intros x. rewrite (select_loop_members b [c] _ _ H2 x). cbn [output].
    split.
    + intros [[]|[c' [[<-|[]] Hx]]].
      destruct Hx as [[E _]|[[E _]|[[E _]|[Hx [->|Hs]]]]];
        [exfalso; exact (Hkw "ALL" ltac:(simpl; tauto) E)
        |exfalso; exact (Hkw "CLUSTER" ltac:(simpl; tauto) E)
        |exfalso; exact (Hkw "." ltac:(simpl; tauto) E)| |].
      * destruct Hc as [->|Hs]; [reflexivity|].
        symmetry. exact (registry_name_short_self n c Hn Hx Hs).
      * destruct Hc as [->|Hs']; [exact (registry_name_short_self x n Hx Hn Hs)|].
        apply (NoDup_map_inj _ _ _ _ shorts_nodup Hx Hn). congruence.
    + intros ->. right. exists c. split; [left; reflexivity|].
      right; right; right. split; [exact Hn|].
      destruct Hc as [->|Hs]; [left; reflexivity | right; exact Hs].
Qed.

Lemma select_single_dot (b : string) :
  select_components b ["."] = Ok ([b], []).
Proof. vm_compute. reflexivity. Qed.

Lemma registry_nonempty (n : string) : In n REPO_LIST_ALL -> n <> "".
Proof.
  intros Hn E. subst n. apply str_in_iff in Hn. vm_compute in Hn. discriminate Hn.
Qed.





(** One [git_checkout] pair whose token selects the registry component
    [n]: the optional fetch and the checkout run in the component's
    directory; a failing command exits with that command. *)
Lemma git_checkout_selected (SRCDIR : option string) (d : string)
    (is_dir : string -> bool) (cmd_ok : string -> string -> bool)
    (c n pr : string) (rest : list (string * string)) (w : world) :
  SRCDIR = Some d -> d <> "" -> is_dir (d ++ "/" ++ n) = true ->
  In n REPO_LIST_ALL ->
  select_components (basename (cwd w)) [c] = Ok ([n], []) ->
  let dir := d ++ "/" ++ n in
  let step v cmd := mk_world dir (printed v ++ [bracket_line n cmd])
                             (spawned v ++ [(dir, cmd)]) in
  let w1 := step w (checkout_cmd pr) in
  let wf := step w "git fetch upstream" in
  let wf1 := step wf (checkout_cmd pr) in
  git_checkout SRCDIR is_dir cmd_ok ((c, pr) :: rest) false w =
    (if cmd_ok dir (checkout_cmd pr) then git_checkout SRCDIR is_dir cmd_ok rest false w1
     else (SysExit (ExitCmd (checkout_cmd pr)), w1)) /\
  git_checkout SRCDIR is_dir cmd_ok ((c, pr) :: rest) true w =
    (if cmd_ok dir "git fetch upstream" then
       if cmd_ok dir (checkout_cmd pr) then git_checkout SRCDIR is_dir cmd_ok rest true wf1
       else (SysExit (ExitCmd (checkout_cmd pr)), wf1)
     else (SysExit (ExitCmd "git fetch upstream"), wf)).
Proof.
  intros HS Hd Hdir Hn Hsel. cbv beta zeta.
  assert (Hin : str_in n REPO_LIST_ALL = true) by (apply str_in_iff, Hn).
  assert (Hne : n <> "") by (apply registry_nonempty, Hn).
  split; cbn [git_checkout]; unfold bindM at 1, select_components_m; rewrite Hsel;
    cbv beta iota; rewrite Hin; rewrite app_nil_r; unfold bindM, retM; cbv beta iota.
  - rewrite (run_command_component SRCDIR d is_dir cmd_ok _ n _ HS Hd Hne Hdir).
    destruct (cmd_ok _ _); reflexivity.
  - rewrite (run_command_component SRCDIR d is_dir cmd_ok _ n _ HS Hd Hne Hdir).
    destruct (cmd_ok (d ++ "/" ++ n) "git fetch upstream"); [|reflexivity].
    rewrite (run_command_component SRCDIR d is_dir cmd_ok _ n _ HS Hd Hne Hdir).
    destruct (cmd_ok _ _); reflexivity.
Qed.












Lemma forM_echo {A : Type} (f : A -> string) (l : list A) (w : world) :
  forM_ (fun x => echo (f x)) l w =
  (Done tt, mk_world (cwd w) (printed w ++ map f l) (spawned w)).
Proof.
  revert w; induction l as [|x l IH]; intros w.
  - destruct w; cbn. rewrite app_nil_r. reflexivity.
  - cbn [forM_ map]. unfold bindM at 1, echo at 1. rewrite IH. cbn [cwd printed spawned].
    rewrite <- app_assoc. reflexivity.
Qed.

(** * Claims *)

(** C1: for every name [n] of [REPO_LIST_ALL], shortening [n] succeeds
    and [find_standard_component_name] maps the short name back to [n];
    in particular 'r-server', 'r-j-controller' and 'reana' resolve to
    'reana-server', 'reana-job-controller' and 'reana'. *)
Theorem find_shorten_roundtrip :
  (forall n, In n REPO_LIST_ALL ->
     exists a, shorten_component_name n = Ok a /\
               find_standard_component_name a = Ok n) /\
  find_standard_component_name "r-server" = Ok "reana-server" /\
  find_standard_component_name "r-j-controller" = Ok "reana-job-controller" /\
  find_standard_component_name "reana" = Ok "reana".
Proof.
  split; [|vm_compute; auto].
  intros n Hn. pose proof (roundtrip_registry n Hn) as H.
  unfold roundtripb in H.
  destruct (shorten_component_name n) as [a|e]; [|discriminate].
  exists a. split; [reflexivity | apply res_eqb_true; exact H].
Qed.

Lemma find_shorten_roundtrip_witness :
  In "reana-job-controller" REPO_LIST_ALL /\
  exists a, shorten_component_name "reana-job-controller" = Ok a /\
            find_standard_component_name a = Ok "reana-job-controller".
Proof.
  assert (H : In "reana-job-controller" REPO_LIST_ALL)
    by (simpl; tauto).
  split; [exact H | exact (proj1 find_shorten_roundtrip _ H)].
Defined.

(** C2: [shorten_component_name] is injective on the registry: two
    distinct names of [REPO_LIST_ALL] have distinct short names. *)
Theorem shorten_injective_registry :
  forall n1 n2, In n1 REPO_LIST_ALL -> In n2 REPO_LIST_ALL -> n1 <> n2 ->
  shorten_component_name n1 <> shorten_component_name n2.
Proof.
  intros n1 n2 H1 H2 Hne Heq. apply Hne.
  exact (NoDup_map_inj _ _ _ _ shorts_nodup H1 H2 Heq).
Qed.

Lemma shorten_injective_registry_witness :
  shorten_component_name "reana-workflow-commons"
  <> shorten_component_name "reana-workflow-controller".
Proof.
  apply shorten_injective_registry; [simpl; tauto | simpl; tauto | discriminate].
Defined.

(** C3: [shorten_component_name] computes the abbreviation rule (split on
    '-', the first character of every part but the last followed by '-',
    then the last part unchanged), raising IndexError exactly where the
    rule has no first character to take; and '' -> '', 'reana' -> 'reana',
    'reana-job-controller' -> 'r-j-controller'. *)
Theorem shorten_component_name_rule :
  (forall name,
     shorten_component_name name =
     match abbreviate_spec name with
     | Some short => Ok short
     | None => Err IndexError
     end) /\
  shorten_component_name "" = Ok "" /\
  shorten_component_name "reana" = Ok "reana" /\
  shorten_component_name "reana-job-controller" = Ok "r-j-controller".
Proof.
  split; [|repeat split; reflexivity].
  intros name. unfold shorten_component_name, abbreviate_spec.
  rewrite shorten_loop_spec. simpl.
  destruct (all_some _); reflexivity.
Qed.

(** C4 (as stated, refuted): [shorten_component_name] is not total on
    arbitrary strings: '-reana' has an empty first part and [part[0]]
    raises IndexError. *)
Lemma shorten_component_name_not_total :
  shorten_component_name "-reana" = Err IndexError /\
  ~ (forall s, exists short, shorten_component_name s = Ok short).
Proof.
  split; [reflexivity|].
  intros H. destruct (H "-reana") as [short Hs]. discriminate Hs.
Qed.

(** C4 (amended): the only failure of [shorten_component_name] is
    IndexError; it returns a string exactly when no hyphen-separated part
    other than the last is empty, and maps '' to ''. *)
Theorem shorten_component_name_total_on_wellformed :
  (forall s,
     (exists short, shorten_component_name s = Ok short) \/
     shorten_component_name s = Err IndexError) /\
  (forall s,
     (exists short, shorten_component_name s = Ok short) <->
     ~ In "" (removelast (split "-"%char s))) /\
  shorten_component_name "" = Ok "".
Proof.
  assert (Hs : forall s, shorten_component_name s =
            match all_some (map initial_with_dash (removelast (split "-"%char s))) with
            | Some initials =>
                Ok (String.concat "" initials ++ last (split "-"%char s) "")
            | None => Err IndexError
            end).
  { intros s. unfold shorten_component_name. rewrite shorten_loop_spec.
    destruct (all_some _); reflexivity. }
  split; [|split; [|reflexivity]]; intros s; rewrite Hs.
  - destruct (all_some _); [left; eexists; reflexivity | right; reflexivity].
  - rewrite <- all_some_initials_None.
    destruct (all_some _); split.
    + intros _ H; discriminate.
    + intros _; eexists; reflexivity.
    + intros [short H]; discriminate.
    + intros H; exfalso; apply H; reflexivity.
Qed.

(** C5: [find_standard_component_name s] scans [REPO_LIST_ALL] in order
    collecting the entries whose short name is [s]; it returns the entry
    iff exactly one matches, and otherwise (zero, or two or more matches)
    raises the one exception [find_error_msg]. *)
Theorem find_standard_component_name_unique_match :
  forall s,
    (forall n, find_standard_component_name s = Ok n <-> matches s = [n]) /\
    (forall e, find_standard_component_name s = Err e ->
       e = Exception find_error_msg /\ length (matches s) <> 1) /\
    (length (matches s) <> 1 ->
       find_standard_component_name s = Err (Exception find_error_msg)).
Proof.
  intros s. rewrite find_standard_component_name_matches.
  destruct (matches s) as [|x [|y l]]; simpl;
    repeat split; intros; try congruence;
    try (match goal with H : _ = _ |- _ => inversion H; subst end); auto.
Qed.

Lemma find_standard_component_name_unique_match_witness :
  length (matches "nonsense") <> 1 /\
  find_standard_component_name "nonsense" = Err (Exception find_error_msg) /\
  (forall e, find_standard_component_name "reana" = Err e ->
     e = Exception find_error_msg /\ length (matches "reana") <> 1).
Proof.
  assert (H : length (matches "nonsense") <> 1) by (vm_compute; discriminate).
  split; [exact H | split].
  - exact (proj2 (proj2 (find_standard_component_name_unique_match "nonsense")) H).
  - exact (proj1 (proj2 (find_standard_component_name_unique_match "reana"))).
Defined.

(** C6 (code defect): the exception raised by
    [find_standard_component_name] does not carry the offending input: the
    message formats the literal text 'short_component_name' instead of the
    argument, so for the input 'nonsense' the message does not contain
    'nonsense'. *)
Theorem find_error_message_omits_input :
  find_standard_component_name "nonsense" = Err (Exception find_error_msg) /\
  String.index 0 "nonsense" find_error_msg = None.
Proof. split; vm_compute; reflexivity. Qed.

(** C7: [select_components] never raises: each unrecognized token adds
    exactly one warning '[] Ignoring unknown component <token>.' (in token
    order) and nothing to the result, which is the result of the
    recognized tokens alone; [['nonsense'; 'reana']] gives [['reana']]
    with one warning. *)
Theorem select_components_warn_and_skip :
  (forall cwd_basename cs, exists out,
     select_components cwd_basename cs =
       Ok (out, map unknown_warning (filter (fun c => negb (recognizedb c)) cs)) /\
     select_components cwd_basename (filter recognizedb cs) = Ok (out, [])) /\
  (forall cwd_basename,
     select_components cwd_basename ["nonsense"; "reana"] =
       Ok (["reana"], [unknown_warning "nonsense"])).
Proof.
  split.
  - intros cwd_basename cs. unfold select_components. rewrite registry_shortens.
    cbn [bind].
    destruct (select_loop_split cwd_basename cs [] []) as [out [H1 H2]].
    exists out. rewrite H1, H2. split; reflexivity.
  - intros cwd_basename. vm_compute. reflexivity.
Qed.

(** C8: [REPO_LIST_CLUSTER] is included in [REPO_LIST_ALL], and for a
    token list without '.', [select_components] returns only names of
    [REPO_LIST_ALL]. *)
Theorem select_components_in_registry :
  incl REPO_LIST_CLUSTER REPO_LIST_ALL /\
  (forall cwd_basename cs, ~ In "." cs ->
     exists out lg, select_components cwd_basename cs = Ok (out, lg) /\
                    forall x, In x out -> In x REPO_LIST_ALL).
Proof.
  split; [exact cluster_in_registry|].
  intros cwd_basename cs Hdot. unfold select_components.
  rewrite registry_shortens. cbn [bind].
  destruct (select_loop_split cwd_basename cs [] []) as [out [_ H2]].
  rewrite H2. cbn [bind output log]. do 2 eexists. split; [reflexivity|].
  assert (H0 : incl (output (mk_sel_state [] [])) REPO_LIST_ALL)
    by (intros x []).
  exact (select_loop_in_registry cwd_basename registry_short_names cs
           _ _ Hdot H0 H2).
Qed.

Lemma select_components_in_registry_witness :
  ~ In "." ["CLUSTER"; "r-server"] /\
  exists out lg, select_components "src" ["CLUSTER"; "r-server"] = Ok (out, lg) /\
                 forall x, In x out -> In x REPO_LIST_ALL.
Proof.
  assert (H : ~ In "." ["CLUSTER"; "r-server"])
    by (simpl; intros [E|[E|[]]]; discriminate E).
  split; [exact H | exact (proj2 select_components_in_registry "src" _ H)].
Defined.

(** C9: [select_components [ALL; reana]] returns exactly the names of
    [REPO_LIST_ALL], each once, and no warning. *)
Theorem select_all_reana_is_registry :
  forall cwd_basename, exists out,
    select_components cwd_basename ["ALL"; "reana"] = Ok (out, []) /\
    NoDup out /\ (forall x, In x out <-> In x REPO_LIST_ALL) /\
    length out = length REPO_LIST_ALL.
Proof.
  intros cwd_basename. exists REPO_LIST_ALL. split; [vm_compute; reflexivity|].
  split; [|split; [reflexivity | reflexivity]].
  exact (NoDup_map_inv _ _ shorts_nodup).
Qed.

(** C10: the group keywords are matched exactly and case-sensitively:
    [['all']] and [['cluster']] give the empty result with one warning
    each. *)
Theorem select_lowercase_keywords_unrecognized :
  forall cwd_basename,
    select_components cwd_basename ["all"] = Ok ([], [unknown_warning "all"]) /\
    select_components cwd_basename ["cluster"] = Ok ([], [unknown_warning "cluster"]).
Proof. intros cwd_basename. split; vm_compute; reflexivity. Qed.

(** * Further properties of the code *)

(** X1: the names returned by [select_components] are exactly those
    contributed by some token: every registry name for 'ALL', every
    cluster name for 'CLUSTER', the current directory's basename for '.',
    and a registry name given in full or by its short name. *)
Theorem select_components_members :
  forall cwd_basename cs, exists out lg,
    select_components cwd_basename cs = Ok (out, lg) /\
    forall x, In x out <-> exists c, In c cs /\ contributes cwd_basename c x.
Proof.
  intros cwd_basename cs.
  destruct (select_components_Ok cwd_basename cs) as [out [H1 H2]].
  eexists out, _. split; [exact H1|].
  intros x. rewrite (select_loop_members cwd_basename cs _ _ H2 x).
  cbn [output]. split; [intros [[]|H]; exact H | intros H; right; exact H].
Qed.

(** X2: [select_components] never returns a name twice. *)
Theorem select_components_NoDup :
  forall cwd_basename cs, exists out lg,
    select_components cwd_basename cs = Ok (out, lg) /\ NoDup out.
Proof.
  intros cwd_basename cs.
  destruct (select_components_Ok cwd_basename cs) as [out [H1 H2]].
  eexists out, _. split; [exact H1|].
  exact (select_loop_NoDup cwd_basename registry_short_names cs (mk_sel_state [] []) _ (NoDup_nil _) H2).
Qed.

(** X3: the returned names depend only on which tokens are given:
    reordering or repeating tokens does not change them. *)
Theorem select_components_token_set :
  forall cwd_basename cs1 cs2, incl cs1 cs2 -> incl cs2 cs1 ->
  exists out1 lg1 out2 lg2,
    select_components cwd_basename cs1 = Ok (out1, lg1) /\
    select_components cwd_basename cs2 = Ok (out2, lg2) /\
    forall x, In x out1 <-> In x out2.
Proof.
  intros cwd_basename cs1 cs2 H12 H21.
  destruct (select_components_Ok cwd_basename cs1) as [out1 [A1 B1]].
  destruct (select_components_Ok cwd_basename cs2) as [out2 [A2 B2]].
  eexists out1, _, out2, _. split; [exact A1 | split; [exact A2|]].
  intros x. rewrite (select_loop_members cwd_basename cs1 _ _ B1 x),
                    (select_loop_members cwd_basename cs2 _ _ B2 x).
  cbn [output]. split; intros [[]|[c [Hc Hx]]]; right; exists c; auto.
Qed.

Lemma select_components_token_set_witness :
  incl ["reana"; "ALL"] ["ALL"; "reana"; "ALL"] /\
  incl ["ALL"; "reana"; "ALL"] ["reana"; "ALL"] /\
  exists out1 lg1 out2 lg2,
    select_components "src" ["reana"; "ALL"] = Ok (out1, lg1) /\
    select_components "src" ["ALL"; "reana"; "ALL"] = Ok (out2, lg2) /\
    forall x, In x out1 <-> In x out2.
Proof.
  assert (H1 : incl ["reana"; "ALL"] ["ALL"; "reana"; "ALL"])
    by (intros x Hx; simpl in *; tauto).
  assert (H2 : incl ["ALL"; "reana"; "ALL"] ["reana"; "ALL"])
    by (intros x Hx; simpl in *; tauto).
  split; [exact H1 | split; [exact H2|]].
  exact (select_components_token_set "src" _ _ H1 H2).
Defined.

(** X4: selecting two token lists one after the other composes: the
    warnings of [cs1 ++ cs2] are those of [cs1] followed by those of
    [cs2], and its names are the union of both results. *)
Theorem select_components_app :
  forall cwd_basename cs1 cs2, exists out1 lg1 out2 lg2 out,
    select_components cwd_basename cs1 = Ok (out1, lg1) /\
    select_components cwd_basename cs2 = Ok (out2, lg2) /\
    select_components cwd_basename (cs1 ++ cs2)%list = Ok (out, (lg1 ++ lg2)%list) /\
    forall x, In x out <-> In x out1 \/ In x out2.
Proof.
  intros cwd_basename cs1 cs2.
  destruct (select_components_Ok cwd_basename cs1) as [out1 [A1 B1]].
  destruct (select_components_Ok cwd_basename cs2) as [out2 [A2 B2]].
  destruct (select_components_Ok cwd_basename (cs1 ++ cs2)%list) as [out [A B]].
  eexists out1, _, out2, _, out.
  split; [exact A1 | split; [exact A2 | split]].
  - rewrite A, filter_app, map_app. reflexivity.
  - intros x. rewrite (select_loop_members cwd_basename _ _ _ B x),
                      (select_loop_members cwd_basename cs1 _ _ B1 x),
                      (select_loop_members cwd_basename cs2 _ _ B2 x).
    cbn [output]. split.
    + intros [[]|[c [Hc Hx]]]. apply in_app_or in Hc as [Hc|Hc];
        [left | right]; right; exists c; auto.
    + intros [[[]|[c [Hc Hx]]]|[[]|[c [Hc Hx]]]]; right; exists c;
        split; auto; apply in_or_app; auto.
Qed.

(** X5: when REANA_SRCDIR is unset or empty, [run_command] for a
    component prints the command line and the two configuration hints
    and exits with status 1 without running anything. *)
Theorem run_command_srcdir_unset :
  forall SRCDIR is_dir cmd_ok cmd component w,
  truthy SRCDIR = false -> component <> "" ->
  run_command SRCDIR is_dir cmd_ok cmd component w =
  (SysExit (ExitInt 1),
   mk_world (cwd w)
            (printed w ++ [bracket_line component cmd; srcdir_help_1; srcdir_help_2])
            (spawned w)).
Proof.
  intros SRCDIR is_dir cmd_ok cmd component w Ht Hc.
  unfold run_command, bindM, echo, get_srcdir, sys_exit.
  rewrite Ht. apply String.eqb_neq in Hc. rewrite Hc. cbn.
  rewrite <- !app_assoc. reflexivity.
Qed.

Lemma run_command_srcdir_unset_witness :
  truthy None = false /\
  run_command None (fun _ => true) (fun _ _ => true) "git fetch upstream"
    "reana-server" (mk_world "/home" [] []) =
  (SysExit (ExitInt 1),
   mk_world "/home" [bracket_line "reana-server" "git fetch upstream";
                     srcdir_help_1; srcdir_help_2] []).
Proof.
  split; [reflexivity|].
  apply (run_command_srcdir_unset None); [reflexivity | discriminate].
Defined.

(** X6: [git_checkout] with a component token that is neither a keyword,
    nor a registry name, nor a short name prints the unknown-component
    warning and then fails with IndexError ([select_components(...)[0]]
    on an empty list): it runs no command and never reaches its own
    'Ignoring unknown component.' branch nor the remaining pairs. *)
Theorem git_checkout_unknown_component :
  forall SRCDIR is_dir cmd_ok c pr rest fetch w,
  recognizedb c = false ->
  git_checkout SRCDIR is_dir cmd_ok ((c, pr) :: rest) fetch w =
  (Raised IndexError,
   mk_world (cwd w) (printed w ++ [unknown_warning c]) (spawned w)).
Proof.
  intros SRCDIR is_dir cmd_ok c pr rest fetch w Hr.
  cbn [git_checkout]. unfold bindM at 1, select_components_m.
  rewrite (select_single_unknown _ c Hr). reflexivity.
Qed.

Lemma git_checkout_unknown_component_witness :
  recognizedb "nonsense" = false /\
  git_checkout None (fun _ => true) (fun _ _ => true) [("nonsense", "72")] false
    (mk_world "/home" [] []) =
  (Raised IndexError, mk_world "/home" [unknown_warning "nonsense"] []).
Proof.
  assert (H : recognizedb "nonsense" = false) by (vm_compute; reflexivity).
  split; [exact H | exact (git_checkout_unknown_component None _ _ _ _ [] false _ H)].
Defined.

(** X7: a '.' pair of [git_checkout] whose working directory is not a
    registry component prints '[<basename>] Ignoring unknown component.',
    runs nothing, and goes on with the next pair. *)
Theorem git_checkout_dot_outside_registry :
  forall SRCDIR is_dir cmd_ok pr rest fetch w,
  ~ In (basename (cwd w)) REPO_LIST_ALL ->
  git_checkout SRCDIR is_dir cmd_ok ((".", pr) :: rest) fetch w =
  git_checkout SRCDIR is_dir cmd_ok rest fetch
    (mk_world (cwd w)
       (printed w ++ [bracket_line (basename (cwd w)) "Ignoring unknown component."])
       (spawned w)).
Proof.
  intros SRCDIR is_dir cmd_ok pr rest fetch w Hb.
  cbn [git_checkout]. unfold bindM at 1, select_components_m.
  rewrite select_single_dot. cbv beta iota.
  destruct (str_in (basename (cwd w)) REPO_LIST_ALL) eqn:E.
  - apply str_in_iff in E. contradiction.
  - unfold bindM, display_message_m, echo. cbn [cwd printed spawned].
    rewrite app_nil_r. reflexivity.
Qed.

Lemma git_checkout_dot_outside_registry_witness :
  ~ In (basename (cwd (mk_world "/home/me/notes" [] []))) REPO_LIST_ALL /\
  git_checkout None (fun _ => true) (fun _ _ => true) [(".", "72")] true
    (mk_world "/home/me/notes" [] []) =
  git_checkout None (fun _ => true) (fun _ _ => true) [] true
    (mk_world "/home/me/notes" [bracket_line "notes" "Ignoring unknown component."] []).
Proof.
  assert (H : ~ In (basename (cwd (mk_world "/home/me/notes" [] []))) REPO_LIST_ALL).
  { intros Hin. apply str_in_iff in Hin. vm_compute in Hin. discriminate Hin. }
  split; [exact H | exact (git_checkout_dot_outside_registry None _ _ "72" [] true _ H)].
Defined.

(** X8: [git_clone] without REANA_GITHUB_USER (unset or empty) prints the
    two configuration hints and exits with status 1 before selecting or
    cloning anything, whatever user and components are given. *)
Theorem git_clone_requires_github_user :
  forall SRCDIR GITHUB_USER is_dir cmd_ok user component w,
  truthy GITHUB_USER = false ->
  git_clone SRCDIR GITHUB_USER is_dir cmd_ok user component w =
  (SysExit (ExitInt 1),
   mk_world (cwd w) (printed w ++ [github_user_help_1; github_user_help_2])
            (spawned w)).
Proof.
  intros SRCDIR GITHUB_USER is_dir cmd_ok user component w Ht.
  unfold git_clone. rewrite Ht. cbn. rewrite <- app_assoc. reflexivity.
Qed.

Lemma git_clone_requires_github_user_witness :
  truthy (Some "") = false /\
  git_clone (Some "/src") (Some "") (fun _ => true) (fun _ _ => true) "alice" ["ALL"]
    (mk_world "/home" [] []) =
  (SysExit (ExitInt 1), mk_world "/home" [github_user_help_1; github_user_help_2] []).
Proof.
  assert (H : truthy (Some "") = false) by reflexivity.
  split; [exact H | exact (git_clone_requires_github_user _ _ _ _ "alice" ["ALL"] _ H)].
Defined.

(** X9: a [git_checkout] pair naming a registry component [n], in full or
    by its short name, runs (after 'git fetch upstream' when [fetch] is
    set) 'git checkout -b pr-<pr> upstream/pr/<pr>' in the directory
    REANA_SRCDIR/n, printing '[n] <command>' for each; the first failing
    command exits with that command and stops the remaining pairs. *)
Theorem git_checkout_registry_component :
  forall SRCDIR d is_dir cmd_ok c n pr rest w,
  SRCDIR = Some d -> d <> "" -> is_dir (d ++ "/" ++ n) = true ->
  In n REPO_LIST_ALL -> (c = n \/ shorten_component_name n = Ok c) ->
  let dir := d ++ "/" ++ n in
  let step v cmd := mk_world dir (printed v ++ [bracket_line n cmd])
                             (spawned v ++ [(dir, cmd)]) in
  let w1 := step w (checkout_cmd pr) in
  let wf := step w "git fetch upstream" in
  let wf1 := step wf (checkout_cmd pr) in
  git_checkout SRCDIR is_dir cmd_ok ((c, pr) :: rest) false w =
    (if cmd_ok dir (checkout_cmd pr) then git_checkout SRCDIR is_dir cmd_ok rest false w1
     else (SysExit (ExitCmd (checkout_cmd pr)), w1)) /\
  git_checkout SRCDIR is_dir cmd_ok ((c, pr) :: rest) true w =
    (if cmd_ok dir "git fetch upstream" then
       if cmd_ok dir (checkout_cmd pr) then git_checkout SRCDIR is_dir cmd_ok rest true wf1
       else (SysExit (ExitCmd (checkout_cmd pr)), wf1)
     else (SysExit (ExitCmd "git fetch upstream"), wf)).
Proof.
  intros SRCDIR d is_dir cmd_ok c n pr rest w HS Hd Hdir Hn Hc.
  apply (git_checkout_selected SRCDIR d is_dir cmd_ok c n pr rest w HS Hd Hdir Hn).
  apply select_single_known; [exact Hn | exact Hc].
Qed.

Lemma git_checkout_registry_component_witness :
  Some "/src" = Some "/src" /\ "/src" <> "" /\
  In "reana-server" REPO_LIST_ALL /\
  git_checkout (Some "/src") (fun _ => true) (fun _ _ => true) [("r-server", "72")] false
    (mk_world "/home" [] []) =
  git_checkout (Some "/src") (fun _ => true) (fun _ _ => true) [] false
    (mk_world "/src/reana-server"
       [bracket_line "reana-server" (checkout_cmd "72")]
       [("/src/reana-server", checkout_cmd "72")]).
Proof.
  assert (H1 : Some "/src" = Some "/src") by reflexivity.
  assert (H2 : "/src" <> "") by discriminate.
  assert (H3 : In "reana-server" REPO_LIST_ALL) by (simpl; tauto).
  assert (H4 : "r-server" = "reana-server" \/
               shorten_component_name "reana-server" = Ok "r-server")
    by (right; reflexivity).
  split; [exact H1 | split; [exact H2 | split; [exact H3|]]].
  exact (proj1 (git_checkout_registry_component (Some "/src") "/src" (fun _ => true)
                  (fun _ _ => true) "r-server" "reana-server" "72" []
                  (mk_world "/home" [] []) H1 H2 eq_refl H3 H4)).
Defined.







(** X13: with REANA_SRCDIR unset, [docker_build] on a non-empty selection
    stops at the Dockerfile check of the first component: it prints the
    selection warnings and the two REANA_SRCDIR help lines and exits with
    status 1, without running any command or changing directory. *)
Theorem docker_build_srcdir_unset :
  forall SRCDIR is_dir path_exists cmd_ok user tag component no_cache w c out lg,
  truthy SRCDIR = false ->
  select_components (basename (cwd w)) component = Ok (c :: out, lg) ->
  docker_build SRCDIR is_dir path_exists cmd_ok user tag component no_cache w =
  (SysExit (ExitInt 1),
   mk_world (cwd w) (printed w ++ lg ++ [srcdir_help_1; srcdir_help_2]) (spawned w)).
Proof.
  intros SRCDIR is_dir path_exists cmd_ok user tag component no_cache w c out lg Hs Hsel.
  unfold docker_build, bindM at 1, select_components_m. rewrite Hsel. cbv beta iota.
  cbn [forM_]. unfold bindM at 1 2, is_component_dockerised, bindM at 1, get_srcdir.
  rewrite Hs. cbn [negb]. unfold bindM, echo, sys_exit. cbn [cwd printed spawned].
  rewrite <- !app_assoc. reflexivity.
Qed.

Lemma docker_build_srcdir_unset_witness :
  docker_build None (fun _ => true) (fun _ => true) (fun _ _ => true)
    "reanahub" "latest" ["r-server"] false (mk_world "/home/me" [] []) =
  (SysExit (ExitInt 1),
   mk_world "/home/me" ([] ++ [] ++ [srcdir_help_1; srcdir_help_2]) []).
Proof.
  apply (docker_build_srcdir_unset None (fun _ => true) (fun _ => true) (fun _ _ => true)
           "reanahub" "latest" ["r-server"] false (mk_world "/home/me" [] [])
           "reana-server" [] []).
  - reflexivity.
  - vm_compute. reflexivity.
Defined.

(** X14: with REANA_GITHUB_USER set but REANA_SRCDIR unset, [git_clone] on
    a non-empty selection prints the selection warnings and the two
    REANA_SRCDIR help lines and exits with status 1 before cloning
    anything. *)
Theorem git_clone_srcdir_unset :
  forall SRCDIR GITHUB_USER is_dir cmd_ok user component w c out lg,
  truthy GITHUB_USER = true -> truthy SRCDIR = false ->
  select_components (basename (cwd w)) component = Ok (c :: out, lg) ->
  git_clone SRCDIR GITHUB_USER is_dir cmd_ok user component w =
  (SysExit (ExitInt 1),
   mk_world (cwd w) (printed w ++ lg ++ [srcdir_help_1; srcdir_help_2]) (spawned w)).
Proof.
  intros SRCDIR GITHUB_USER is_dir cmd_ok user component w c out lg Hu Hs Hsel.
  unfold git_clone. rewrite Hu. cbn [negb].
  unfold bindM at 1, select_components_m. rewrite Hsel. cbv beta iota.
  cbn [forM_]. unfold bindM at 1 2, get_srcdir.
  rewrite Hs. cbn [negb]. unfold bindM, echo, sys_exit. cbn [cwd printed spawned].
  rewrite <- !app_assoc. reflexivity.
Qed.

Lemma git_clone_srcdir_unset_witness :
  git_clone (Some "") (Some "alice") (fun _ => true) (fun _ _ => true) "alice"
    ["r-server"] (mk_world "/home/me" [] []) =
  (SysExit (ExitInt 1),
   mk_world "/home/me" ([] ++ [] ++ [srcdir_help_1; srcdir_help_2]) []).
Proof.
  apply (git_clone_srcdir_unset (Some "") (Some "alice") (fun _ => true) (fun _ _ => true)
           "alice" ["r-server"] (mk_world "/home/me" [] []) "reana-server" [] []).
  - reflexivity.
  - reflexivity.
  - vm_compute. reflexivity.
Defined.





(** X17: [git_fork] runs no command and does not change directory: it
    prints the selection warnings, then, only when the selection is
    non-empty, the instructions ending in an eval line that repeats the
    raw [-c] tokens as given, then one browser command per selected
    component and finally the closing echo line, which is printed even when
    nothing was selected. *)
Theorem git_fork_output :
  forall component browser w,
  exists out lg,
    select_components (basename (cwd w)) component = Ok (out, lg) /\
    git_fork component browser w =
    (Done tt,
     mk_world (cwd w)
       (printed w ++ lg ++
        (match out with
         | [] => []
         | _ :: _ => [fork_header_1; fork_header_2; "#"; fork_eval_line browser component]
         end) ++ map (fork_cmd browser) out ++ [fork_final])
       (spawned w)).
Proof.
  intros component browser w.
  destruct (select_components_Ok (basename (cwd w)) component) as [out [Hsel _]].
  eexists out, _. split; [exact Hsel|].
  unfold git_fork, bindM at 1, select_components_m. rewrite Hsel. cbv beta iota.
  destruct out as [|c out].
  - unfold bindM, retM. rewrite forM_echo. unfold echo. cbn [cwd printed spawned map].
    rewrite <- !app_assoc. reflexivity.
  - unfold bindM at 1 2 3 4 5, echo at 1 2 3 4. cbn [cwd printed spawned].
    unfold bindM. rewrite forM_echo. unfold echo. cbn [cwd printed spawned].
    rewrite <- !app_assoc. reflexivity.
Qed.
